(** * Token-bucket rate limiter (run_server.py)

    A shallow embedding of [TokenBucket] and of the [RateLimiter.rate_limited]
    wrapper, followed by the properties of the specification.

    Modelling conventions.
    - Python [float] values (token counts, refill rates, timestamps) are
      idealised as exact rationals [Q]; results over [Q] are stated up to
      [Qeq] ([==]).  Rounding, infinities and NaN are outside the model.
    - [capacity] is a Python [int] and is modelled as [Z]; it enters the
      arithmetic through [inject_Z], as Python's mixed int/float operations do.
    - [time.time()] is an input of the environment: every operation that reads
      the clock takes the value read as its argument [now].
    - Mutation of [self] is explicit state passing: an operation returns the
      bucket it leaves behind.
    - Where it decides whether a call raises, module [Checked] keeps Python's
      [int] and [float] apart: converting an int to float fails from
      2^1024 - 2^970 on. *)

From Stdlib Require Import ZArith QArith Qround Qminmax Lqa Lia List Bool String.
Import ListNotations.
Open Scope Q_scope.

(** ** Python built-ins *)

Definition Qlt_bool (x y : Q) : bool := negb (Qle_bool y x).

(** [min(a, b)] on two arguments: the first one, unless the second is
    strictly smaller. *)
Definition py_min (a b : Q) : Q := if Qlt_bool b a then b else a.

(** ** class TokenBucket *)

Module TokenBucket.

Record t : Type := mk {
  capacity : Z;
  tokens : Q;
  refill_rate : Q;
  last_checked : Q
}.

Definition set_tokens (self : t) (v : Q) : t :=
  mk (capacity self) v (refill_rate self) (last_checked self).

Definition set_last_checked (self : t) (v : Q) : t :=
  mk (capacity self) (tokens self) (refill_rate self) v.

Definition set_capacity (self : t) (v : Z) : t :=
  mk v (tokens self) (refill_rate self) (last_checked self).

Definition set_refill_rate (self : t) (v : Q) : t :=
  mk (capacity self) (tokens self) v (last_checked self).

(** [TokenBucket(capacity, refill_rate)], the clock reading [now]. *)
Definition __init__ (now : Q) (capacity : Z) (refill_rate : Q) : t :=
  mk capacity (inject_Z capacity) refill_rate now.

(** [self.allow_request()], the clock reading [now]. *)
Definition allow_request (now : Q) (self : t) : bool * t :=
  let elapsed := now - last_checked self in
  let self := set_last_checked self now in
  let self :=
    set_tokens self
      (py_min (inject_Z (capacity self))
              (tokens self + elapsed * refill_rate self)) in
  if Qle_bool 1 (tokens self)
  then (true, set_tokens self (tokens self - 1))
  else (false, self).

(** [self.update_config(capacity, refill_rate)]. *)
Definition update_config (capacity : Z) (refill_rate : Q) (self : t) : t :=
  let self := set_capacity self capacity in
  let self := set_refill_rate self refill_rate in
  set_tokens self (py_min (tokens self) (inject_Z (TokenBucket.capacity self))).

End TokenBucket.

(** ** class RateLimiter and the routes of [create_app] *)

Module RateLimiter.

(** [fastapi.HTTPException(status_code, detail)]. *)
Record HTTPException : Type := mkHTTPException {
  status_code : Z;
  detail : string
}.

(** [status.HTTP_429_TOO_MANY_REQUESTS]. *)
Definition HTTP_429_TOO_MANY_REQUESTS : Z := 429%Z.

(** What a handler does: it raises an [HTTPException] or returns a value. *)
Inductive outcome (A : Type) : Type :=
| Raise (e : HTTPException)
| Return (v : A).
Arguments Raise {A} e.
Arguments Return {A} v.

Definition rate_limit_exceeded : HTTPException :=
  mkHTTPException HTTP_429_TOO_MANY_REQUESTS
                  "Rate limit exceeded. Try again later.".

(** [wrapper] of [rate_limited().decorator(func)]: the bucket the limiter
    refers to is threaded through, [now] is what the bucket's clock reads. *)
Definition rate_limited {Request A : Type} (func : Request -> outcome A)
    (now : Q) (request : Request) (bucket : TokenBucket.t)
    : outcome A * TokenBucket.t :=
  let (allowed, bucket) := TokenBucket.allow_request now bucket in
  if negb allowed
  then (Raise rate_limit_exceeded, bucket)
  else (func request, bucket).

(** The JSON object returned by the guarded route, as its list of items. *)
Definition rate_limited_endpoint {Request : Type} (request : Request)
    : outcome (list (string * string)) :=
  Return [("message", "Rate Limiter Code Challenge!")]%string.

(** [GET /]: the endpoint behind the decorator. *)
Definition guarded_route {Request : Type}
    : Q -> Request -> TokenBucket.t ->
      outcome (list (string * string)) * TokenBucket.t :=
  rate_limited rate_limited_endpoint.

End RateLimiter.

(** ** Sequences of calls on one bucket *)

Inductive call : Type :=
| AllowRequest (now : Q)
| UpdateConfig (capacity : Z) (refill_rate : Q).

Definition do_call (c : call) (b : TokenBucket.t) : TokenBucket.t :=
  match c with
  | AllowRequest now => snd (TokenBucket.allow_request now b)
  | UpdateConfig capacity refill_rate =>
      TokenBucket.update_config capacity refill_rate b
  end.

(** The bucket as it is immediately after each call of the sequence. *)
Fixpoint states_after (calls : list call) (b : TokenBucket.t)
    : list TokenBucket.t :=
  match calls with
  | [] => []
  | c :: calls => let b' := do_call c b in b' :: states_after calls b'
  end.

(** Consecutive [allow_request] calls at the given clock readings: the
    decisions in order, and the bucket left behind. *)
Fixpoint allow_requests (times : list Q) (b : TokenBucket.t)
    : list bool * TokenBucket.t :=
  match times with
  | [] => ([], b)
  | now :: times =>
      let (allowed, b') := TokenBucket.allow_request now b in
      let (rest, b'') := allow_requests times b' in
      (allowed :: rest, b'')
  end.

(** Buckets built by the constructor and the two methods, whatever the
    arguments and clock readings. *)
Inductive reachable : TokenBucket.t -> Prop :=
| reach_init now capacity refill_rate :
    reachable (TokenBucket.__init__ now capacity refill_rate)
| reach_call c b : reachable b -> reachable (do_call c b).

(** ** Predicates of the specification *)

(** [0 <= tokens <= capacity]. *)
Definition tokens_in_range (b : TokenBucket.t) : Prop :=
  0 <= TokenBucket.tokens b /\
  TokenBucket.tokens b <= inject_Z (TokenBucket.capacity b).

Definition tokens_in_rangeb (b : TokenBucket.t) : bool :=
  Qle_bool 0 (TokenBucket.tokens b) &&
  Qle_bool (TokenBucket.tokens b) (inject_Z (TokenBucket.capacity b)).

(** The clock never steps back from [last] on, and every reconfiguration
    passes a capacity and a refill rate that are not negative. *)
Fixpoint calls_ok (last : Q) (calls : list call) : bool :=
  match calls with
  | [] => true
  | AllowRequest now :: calls => Qle_bool last now && calls_ok now calls
  | UpdateConfig capacity refill_rate :: calls =>
      (0 <=? capacity)%Z && Qle_bool 0 refill_rate && calls_ok last calls
  end.

(** Clock readings that never step back from [last] on. *)
Fixpoint non_decreasing (last : Q) (times : list Q) : bool :=
  match times with
  | [] => true
  | now :: times => Qle_bool last now && non_decreasing now times
  end.


(** The token count right after the refill step of [allow_request]. *)
Definition refilled (now : Q) (b : TokenBucket.t) : Q :=
  py_min (inject_Z (TokenBucket.capacity b))
         (TokenBucket.tokens b +
          (now - TokenBucket.last_checked b) * TokenBucket.refill_rate b).

(** ** The application built by [create_app] *)

Module App.

(** [class RateLimitUpdate(BaseModel)]: the payload of [POST /update]. *)
Record RateLimitUpdate : Type := mkRateLimitUpdate {
  capacity : Z;
  refill_rate : Q
}.

(** The object [update_rate_limit] returns: the keys [message] and
    [new_config], the latter with the keys [capacity] and [refill_rate]. *)
Record update_reply : Type := mkUpdateReply {
  message : string;
  new_config : RateLimitUpdate
}.

(** [update_rate_limit(config)]: the bucket is the one [create_app] built,
    the same object the rate limiter of the guarded route refers to. *)
Definition update_rate_limit (config : RateLimitUpdate)
    (bucket : TokenBucket.t)
    : RateLimiter.outcome update_reply * TokenBucket.t :=
  let bucket :=
    TokenBucket.update_config (capacity config) (refill_rate config) bucket in
  (RateLimiter.Return
     (mkUpdateReply "Rate limit updated"
        (mkRateLimitUpdate (capacity config) (refill_rate config))),
   bucket).

(** A request to one of the two routes; [GET /] carries what the clock
    reads when its handler runs. *)
Inductive request : Type :=
| GET_root (now : Q)
| POST_update (config : RateLimitUpdate).

Inductive response : Type :=
| root_response (o : RateLimiter.outcome (list (string * string)))
| update_response (o : RateLimiter.outcome update_reply).


(** Dispatch of one request to its route. *)
Definition serve (r : request) (bucket : TokenBucket.t)
    : response * TokenBucket.t :=
  match r with
  | GET_root now =>
      let (o, bucket) := RateLimiter.guarded_route now r bucket in
      (root_response o, bucket)
  | POST_update config =>
      let (o, bucket) := update_rate_limit config bucket in
      (update_response o, bucket)
  end.

(** Requests served one after the other. *)
Fixpoint serve_all (rs : list request) (bucket : TokenBucket.t)
    : list response * TokenBucket.t :=
  match rs with
  | [] => ([], bucket)
  | r :: rs =>
      let (o, bucket) := serve r bucket in
      let (os, bucket) := serve_all rs bucket in
      (o :: os, bucket)
  end.

End App.

(** ** The bucket with Python's two number types kept apart

    [tokens] holds an [int] after the constructor and whenever [min] hands
    back the capacity, and a [float] otherwise.  The refill adds a float to
    it, which converts an int to float first; an int that no float can hold
    makes that conversion raise [OverflowError].  Comparisons between an int
    and a float, and [n - 1], raise nothing. *)

Module Checked.

Inductive number : Type :=
| PyInt (z : Z)
| PyFloat (q : Q).

Definition value (n : number) : Q :=
  match n with
  | PyInt z => inject_Z z
  | PyFloat q => q
  end.

(** The least magnitude of an int that has no float: half a unit in the
    last place below 2^1024. *)
Definition float_limit : Z := (2 ^ 1024 - 2 ^ 970)%Z.

Definition fits_float (n : number) : bool :=
  match n with
  | PyInt z => (Z.abs z <? float_limit)%Z
  | PyFloat _ => true
  end.

Record t : Type := mk {
  capacity : Z;
  tokens : number;
  refill_rate : Q;
  last_checked : Q
}.

Definition set_tokens (self : t) (v : number) : t :=
  mk (capacity self) v (refill_rate self) (last_checked self).

Definition set_last_checked (self : t) (v : Q) : t :=
  mk (capacity self) (tokens self) (refill_rate self) v.

(** How a call ends. *)
Inductive completion (A : Type) : Type :=
| Returned (v : A)
| OverflowError.
Arguments Returned {A} v.
Arguments OverflowError {A}.

Definition __init__ (now : Q) (capacity : Z) (refill_rate : Q) : t :=
  mk capacity (PyInt capacity) refill_rate now.

(** [n + x] for a float [x]. *)
Definition add_float (n : number) (x : Q) : option Q :=
  if fits_float n then Some (value n + x) else None.

(** [min(capacity, x)] for the int [capacity] and a float [x]. *)
Definition min_capacity (capacity : Z) (x : Q) : number :=
  if Qlt_bool x (inject_Z capacity) then PyFloat x else PyInt capacity.

(** [n - 1]. *)
Definition decrement (n : number) : number :=
  match n with
  | PyInt z => PyInt (z - 1)
  | PyFloat q => PyFloat (q - 1)
  end.

(** [self.allow_request()]: [last_checked] is assigned before the refill is
    computed, so it is [now] also in the bucket an [OverflowError] leaves. *)
Definition allow_request (now : Q) (self : t) : completion bool * t :=
  let elapsed := now - last_checked self in
  let self := set_last_checked self now in
  match add_float (tokens self) (elapsed * refill_rate self) with
  | None => (OverflowError, self)
  | Some x =>
      let self := set_tokens self (min_capacity (capacity self) x) in
      if Qle_bool 1 (value (tokens self))
      then (Returned true, set_tokens self (decrement (tokens self)))
      else (Returned false, self)
  end.

(** The bucket with the number types forgotten. *)
Definition erase (self : t) : TokenBucket.t :=
  TokenBucket.mk (capacity self) (value (tokens self)) (refill_rate self)
                 (last_checked self).

End Checked.

(** Equality of buckets up to the representation of their rationals. *)
Definition bucket_equiv (b1 b2 : TokenBucket.t) : Prop :=
  TokenBucket.capacity b1 = TokenBucket.capacity b2 /\
  TokenBucket.tokens b1 == TokenBucket.tokens b2 /\
  TokenBucket.refill_rate b1 = TokenBucket.refill_rate b2 /\
  TokenBucket.last_checked b1 = TokenBucket.last_checked b2.

(** What the induction over a sequence of calls carries along. *)
Definition sound (b : TokenBucket.t) : Prop :=
  tokens_in_range b /\
  (0 <= TokenBucket.capacity b)%Z /\
  0 <= TokenBucket.refill_rate b.

(** Integer literals injected into [Q] are the literals of [Q]. *)
Ltac inject_lit :=
  change (inject_Z 0) with 0 in *; change (inject_Z 1) with 1 in *.

(** ** Basic facts *)

Lemma Qlt_bool_iff (x y : Q) : Qlt_bool x y = true <-> x < y.
Proof.
  unfold Qlt_bool. rewrite negb_true_iff.
  destruct (Qle_bool y x) eqn:E.
  - apply Qle_bool_iff in E. split; [discriminate | intros H; lra].
  - split; [intros _ | reflexivity].
    destruct (Qlt_le_dec x y) as [H | H]; [exact H |].
    apply Qle_bool_iff in H. congruence.
Qed.

Lemma py_min_cases (a b : Q) :
  (b < a /\ py_min a b = b) \/ (a <= b /\ py_min a b = a).
Proof.
  unfold py_min. destruct (Qlt_bool b a) eqn:E.
  - left. apply Qlt_bool_iff in E. auto.
  - right. split; [| reflexivity].
    destruct (Qlt_le_dec b a) as [H | H]; [| exact H].
    apply Qlt_bool_iff in H. congruence.
Qed.

Lemma py_min_Qmin (a b : Q) : py_min a b = Qmin a b.
Proof.
  destruct (py_min_cases a b) as [[H E] | [H E]]; rewrite E; symmetry.
  - unfold Qmin, GenericMinMax.gmin.
    apply Qgt_alt in H. now rewrite H.
  - unfold Qmin, GenericMinMax.gmin.
    apply Qle_alt in H.
    destruct (a ?= b) eqn:C; [reflexivity | reflexivity | now elim H].
Qed.

Lemma py_min_le_l (a b : Q) : py_min a b <= a.
Proof. destruct (py_min_cases a b) as [[H E] | [H E]]; rewrite E; lra. Qed.

Lemma py_min_le_r (a b : Q) : py_min a b <= b.
Proof. destruct (py_min_cases a b) as [[H E] | [H E]]; rewrite E; lra. Qed.

Lemma py_min_glb (a b c : Q) : c <= a -> c <= b -> c <= py_min a b.
Proof.
  intros; destruct (py_min_cases a b) as [[H' E] | [H' E]]; rewrite E; lra.
Qed.


Lemma Qle_bool_false (x y : Q) : Qle_bool x y = false <-> y < x.
Proof.
  pose proof (Qlt_bool_iff y x) as H. unfold Qlt_bool in H.
  rewrite negb_true_iff in H. exact H.
Qed.

(** The two ways through [allow_request]. *)
Lemma allow_request_cases (now : Q) (b : TokenBucket.t) :
  (1 <= refilled now b /\
   TokenBucket.allow_request now b =
     (true, TokenBucket.mk (TokenBucket.capacity b) (refilled now b - 1)
                           (TokenBucket.refill_rate b) now)) \/
  (refilled now b < 1 /\
   TokenBucket.allow_request now b =
     (false, TokenBucket.mk (TokenBucket.capacity b) (refilled now b)
                            (TokenBucket.refill_rate b) now)).
Proof.
  unfold TokenBucket.allow_request, refilled. cbn.
  destruct (Qle_bool 1 _) eqn:E.
  - left. apply Qle_bool_iff in E. split; [exact E | reflexivity].
  - right. apply Qle_bool_false in E. split; [exact E | reflexivity].
Qed.

Lemma refilled_le_capacity (now : Q) (b : TokenBucket.t) :
  refilled now b <= inject_Z (TokenBucket.capacity b).
Proof. apply py_min_le_l. Qed.

Lemma tokens_in_rangeb_iff (b : TokenBucket.t) :
  tokens_in_rangeb b = true <-> tokens_in_range b.
Proof.
  unfold tokens_in_rangeb, tokens_in_range.
  now rewrite andb_true_iff, !Qle_bool_iff.
Qed.

Lemma Forall_tokens_in_range (l : list TokenBucket.t) :
  Forall tokens_in_range l <-> forallb tokens_in_rangeb l = true.
Proof.
  rewrite forallb_forall, Forall_forall.
  split; intros H x Hx; apply tokens_in_rangeb_iff, H, Hx.
Qed.

(** *** The upper bound needs nothing from the caller. *)

Lemma allow_request_upper (now : Q) (b : TokenBucket.t) :
  TokenBucket.tokens (snd (TokenBucket.allow_request now b))
  <= inject_Z (TokenBucket.capacity (snd (TokenBucket.allow_request now b))).
Proof.
  pose proof (refilled_le_capacity now b).
  destruct (allow_request_cases now b) as [[H1 E] | [H1 E]];
    rewrite E; cbn; lra.
Qed.

Lemma update_config_upper (c : Z) (r : Q) (b : TokenBucket.t) :
  TokenBucket.tokens (TokenBucket.update_config c r b)
  <= inject_Z (TokenBucket.capacity (TokenBucket.update_config c r b)).
Proof. cbn. apply py_min_le_r. Qed.

Lemma do_call_upper (c : call) (b : TokenBucket.t) :
  TokenBucket.tokens (do_call c b)
  <= inject_Z (TokenBucket.capacity (do_call c b)).
Proof.
  destruct c; [apply allow_request_upper | apply update_config_upper].
Qed.

Lemma reachable_upper (b : TokenBucket.t) :
  reachable b -> TokenBucket.tokens b <= inject_Z (TokenBucket.capacity b).
Proof.
  induction 1 as [now c r | c b _ _]; [cbn; lra | apply do_call_upper].
Qed.

(** *** The lower bound needs a clock that does not step back and
    arguments that are not negative. *)

Lemma allow_request_lower (now : Q) (b : TokenBucket.t) :
  0 <= TokenBucket.tokens b ->
  0 <= inject_Z (TokenBucket.capacity b) ->
  0 <= TokenBucket.refill_rate b ->
  TokenBucket.last_checked b <= now ->
  0 <= TokenBucket.tokens (snd (TokenBucket.allow_request now b)).
Proof.
  intros Ht Hc Hr Hn.
  assert (0 <= refilled now b) as Hm.
  { apply py_min_glb; [exact Hc |].
    assert (0 <= (now - TokenBucket.last_checked b) * TokenBucket.refill_rate b)
      by (apply Qmult_le_0_compat; lra).
    lra. }
  destruct (allow_request_cases now b) as [[H1 E] | [H1 E]];
    rewrite E; cbn; lra.
Qed.

Lemma allow_request_frame (now : Q) (b : TokenBucket.t) :
  TokenBucket.capacity (snd (TokenBucket.allow_request now b))
    = TokenBucket.capacity b /\
  TokenBucket.refill_rate (snd (TokenBucket.allow_request now b))
    = TokenBucket.refill_rate b /\
  TokenBucket.last_checked (snd (TokenBucket.allow_request now b)) = now.
Proof.
  destruct (allow_request_cases now b) as [[H1 E] | [H1 E]];
    rewrite E; cbn; auto.
Qed.

Lemma inject_Z_nonneg (z : Z) : (0 <= z)%Z -> 0 <= inject_Z z.
Proof. intros H. change 0 with (inject_Z 0). now rewrite <- Zle_Qle. Qed.

Lemma states_after_in_range (calls : list call) :
  forall b : TokenBucket.t,
    sound b ->
    calls_ok (TokenBucket.last_checked b) calls = true ->
    Forall tokens_in_range (states_after calls b).
Proof.
  induction calls as [| c calls IH]; intros b [[Hlo Hup] [Hc Hr]] Hok;
    cbn [states_after]; [constructor |].
  assert (sound (do_call c b) /\
          calls_ok (TokenBucket.last_checked (do_call c b)) calls = true)
    as [Hs Hok'].
  { destruct c as [now | c r]; cbn [calls_ok do_call] in *.
    - apply andb_true_iff in Hok as [Hn Hok]. apply Qle_bool_iff in Hn.
      destruct (allow_request_frame now b) as (Ec & Er & El).
      rewrite El. split; [| exact Hok].
      repeat split.
      + apply allow_request_lower; auto using inject_Z_nonneg.
      + apply allow_request_upper.
      + now rewrite Ec.
      + now rewrite Er.
    - apply andb_true_iff in Hok as [Hok Hrest].
      apply andb_true_iff in Hok as [Hc' Hr'].
      apply Z.leb_le in Hc'. apply Qle_bool_iff in Hr'.
      split; [| exact Hrest].
      repeat split; cbn; auto.
      + apply py_min_glb; auto using inject_Z_nonneg.
      + apply py_min_le_r. }
  constructor; [apply Hs | apply IH; assumption].
Qed.

Lemma states_after_upper (calls : list call) :
  forall b : TokenBucket.t,
    Forall (fun b' => TokenBucket.tokens b' <= inject_Z (TokenBucket.capacity b'))
           (states_after calls b).
Proof.
  induction calls as [| c calls IH]; intros b; cbn [states_after];
    constructor; [apply do_call_upper | apply IH].
Qed.

(** *** Bursts: calls that all read the same clock value. *)

Lemma Qfloor_unique (x : Q) (n : Z) :
  inject_Z n <= x -> x < inject_Z (n + 1) -> Qfloor x = n.
Proof.
  intros Hlo Hhi.
  pose proof (Qfloor_le x) as H1. pose proof (Qlt_floor x) as H2.
  assert (inject_Z (Qfloor x) < inject_Z (n + 1)) as H3 by lra.
  assert (inject_Z n < inject_Z (Qfloor x + 1)) as H4 by lra.
  rewrite <- Zlt_Qlt in H3, H4. lia.
Qed.

Lemma Qfloor_pred (x : Q) : Qfloor (x - 1) = (Qfloor x - 1)%Z.
Proof.
  pose proof (Qfloor_le x) as H1. pose proof (Qlt_floor x) as H2.
  apply Qfloor_unique.
  - unfold Z.sub. rewrite inject_Z_plus, inject_Z_opp. inject_lit. lra.
  - replace (Qfloor x - 1 + 1)%Z with (Qfloor x) by lia.
    rewrite inject_Z_plus in H2. inject_lit. lra.
Qed.

Lemma Qfloor_below_one (x : Q) : x < 1 -> Z.to_nat (Qfloor x) = 0%nat.
Proof.
  intros H. pose proof (Qfloor_le x) as H1.
  assert (inject_Z (Qfloor x) < inject_Z 1) as H2 by (inject_lit; lra).
  rewrite <- Zlt_Qlt in H2. lia.
Qed.

Lemma Qfloor_from_one (x : Q) : 1 <= x -> (1 <= Qfloor x)%Z.
Proof.
  intros H. pose proof (Qlt_floor x) as H1.
  assert (inject_Z 1 < inject_Z (Qfloor x + 1)) as H2 by (inject_lit; lra).
  rewrite <- Zlt_Qlt in H2. lia.
Qed.

(** With no time elapsed the refill step adds nothing. *)
Lemma refilled_same_time (now : Q) (b : TokenBucket.t) :
  TokenBucket.last_checked b = now ->
  TokenBucket.tokens b <= inject_Z (TokenBucket.capacity b) ->
  refilled now b == TokenBucket.tokens b.
Proof.
  intros El Hup. unfold refilled. rewrite El.
  assert ((now - now) * TokenBucket.refill_rate b == 0) as Hz by ring.
  destruct (py_min_cases (inject_Z (TokenBucket.capacity b))
              (TokenBucket.tokens b + (now - now) * TokenBucket.refill_rate b))
    as [[H E] | [H E]]; rewrite E; lra.
Qed.

Lemma burst (k : nat) :
  forall (now : Q) (b : TokenBucket.t),
    fst (allow_requests (repeat now k) b) =
      repeat true (Nat.min k (Z.to_nat (Qfloor (refilled now b)))) ++
      repeat false (k - Z.to_nat (Qfloor (refilled now b))).
Proof.
  induction k as [| k IH]; intros now b; [reflexivity |].
  cbn [repeat allow_requests].
  pose proof (refilled_le_capacity now b) as Hup.
  destruct (allow_request_cases now b) as [[H1 E] | [H1 E]]; rewrite E;
    match goal with
    | |- context [allow_requests _ ?b'] =>
        specialize (IH now b');
        assert (refilled now b' == TokenBucket.tokens b') as Hsame
          by (apply refilled_same_time; cbn; [reflexivity | lra]);
        destruct (allow_requests (repeat now k) b') as [rest b''] eqn:Er
    end;
    cbn [fst] in *; rewrite IH, Hsame; cbn [TokenBucket.tokens].
  - rewrite Qfloor_pred. apply Qfloor_from_one in H1.
    replace (Z.to_nat (Qfloor (refilled now b)))
      with (S (Z.to_nat (Qfloor (refilled now b) - 1))) by lia.
    reflexivity.
  - rewrite (Qfloor_below_one _ H1). rewrite Nat.min_0_r, Nat.sub_0_r.
    reflexivity.
Qed.

(** A bucket of capacity 0 stays empty and refuses. *)
Lemma capacity_zero_denies (times : list Q) :
  forall b : TokenBucket.t,
    TokenBucket.capacity b = 0%Z ->
    TokenBucket.tokens b == 0 ->
    0 <= TokenBucket.refill_rate b ->
    non_decreasing (TokenBucket.last_checked b) times = true ->
    fst (allow_requests times b) = repeat false (List.length times) /\
    Forall (fun b' => TokenBucket.tokens b' == 0)
           (states_after (map AllowRequest times) b).
Proof.
  induction times as [| now times IH]; intros b Hc Ht Hr Hnd;
    [split; [reflexivity | constructor] |].
  cbn [non_decreasing] in Hnd. apply andb_true_iff in Hnd as [Hn Hnd].
  apply Qle_bool_iff in Hn.
  cbn [allow_requests map states_after do_call List.length repeat].
  assert (refilled now b == 0) as Hm.
  { unfold refilled. rewrite Hc.
    assert (0 <= (now - TokenBucket.last_checked b) * TokenBucket.refill_rate b)
      by (apply Qmult_le_0_compat; lra).
    destruct (py_min_cases (inject_Z 0)
                (TokenBucket.tokens b +
                 (now - TokenBucket.last_checked b) * TokenBucket.refill_rate b))
      as [[H' E] | [H' E]]; rewrite E; inject_lit; lra. }
  destruct (allow_request_cases now b) as [[H1 E] | [H1 E]]; [lra |].
  rewrite E. cbn [snd].
  match goal with
  | |- context [allow_requests _ ?b'] =>
      destruct (IH b') as [IH1 IH2]; cbn; auto;
      destruct (allow_requests times b') as [rest b''] eqn:Er
  end.
  cbn [fst] in *. split; [now rewrite IH1 |].
  constructor; [exact Hm | exact IH2].
Qed.

(** Calls that run one after the other at one clock reading, on a bucket
    holding one token: the first is admitted, the others are denied. *)
Lemma serialised_calls_one_token (k : nat) (now : Q) (b : TokenBucket.t) :
  TokenBucket.tokens b == 1 ->
  TokenBucket.last_checked b = now ->
  (1 <= TokenBucket.capacity b)%Z ->
  fst (allow_requests (repeat now (S k)) b) = true :: repeat false k.
Proof.
  intros Ht El Hc. rewrite burst.
  assert (refilled now b == 1) as Hm.
  { rewrite refilled_same_time; [exact Ht | exact El |].
    rewrite Zle_Qle in Hc. inject_lit. lra. }
  rewrite Hm. change (Qfloor 1) with 1%Z.
  change (Z.to_nat 1) with 1%nat.
  replace (Nat.min (S k) 1) with 1%nat by lia.
  replace (S k - 1)%nat with k by lia.
  reflexivity.
Qed.

(** * Properties of the specification *)

(** ** Token range *)

(** C1, as the specification states it, fails in three ways on a bucket built
    with capacity 5 and refill rate 1/2 at time 0: a reconfiguration to
    capacity -1, a call whose clock reads -20, and a reconfiguration to
    refill rate -1 followed by a call at time 10 each leave a token count
    outside [0 <= tokens <= capacity]. *)
Lemma tokens_in_range_not_unconditional :
  (0 <= 5)%Z /\ 0 <= 1#2 /\
  ~ Forall tokens_in_range
      (states_after [UpdateConfig (-1) (1#2)]
                    (TokenBucket.__init__ 0 5 (1#2))) /\
  ~ Forall tokens_in_range
      (states_after [AllowRequest (-20)] (TokenBucket.__init__ 0 5 (1#2))) /\
  ~ Forall tokens_in_range
      (states_after [UpdateConfig 5 (-1); AllowRequest 10]
                    (TokenBucket.__init__ 0 5 (1#2))).
Proof.
  rewrite !Forall_tokens_in_range.
  split; [lia |]. split; [lra |].
  repeat split; vm_compute; discriminate.
Qed.

(** C1 (amended): for a bucket constructed with capacity >= 0 and
    refill_rate >= 0, [tokens <= capacity] holds after every call of every
    sequence of [allow_request] and [update_config] calls; and
    [0 <= tokens <= capacity] holds after every call of a sequence in which
    the clock never steps back and every [update_config] passes a capacity
    and a refill rate that are not negative. *)
Theorem tokens_in_range_after_calls
    (now0 : Q) (capacity : Z) (refill_rate : Q) (calls : list call) :
  (0 <= capacity)%Z ->
  0 <= refill_rate ->
  let b := TokenBucket.__init__ now0 capacity refill_rate in
  Forall (fun b' => TokenBucket.tokens b' <= inject_Z (TokenBucket.capacity b'))
         (states_after calls b) /\
  (calls_ok now0 calls = true ->
   Forall tokens_in_range (states_after calls b)).
Proof.
  intros Hc Hr b. split; [apply states_after_upper |].
  intros Hok. apply states_after_in_range; [| exact Hok].
  repeat split; cbn; auto using inject_Z_nonneg. lra.
Qed.

Lemma tokens_in_range_after_calls_witness :
  calls_ok 0 [AllowRequest 0; AllowRequest 2; UpdateConfig 3 2;
              AllowRequest 7; UpdateConfig 10 0; AllowRequest 7] = true /\
  Forall tokens_in_range
    (states_after [AllowRequest 0; AllowRequest 2; UpdateConfig 3 2;
                   AllowRequest 7; UpdateConfig 10 0; AllowRequest 7]
                  (TokenBucket.__init__ 0 5 (1#2))).
Proof.
  split; [reflexivity |].
  apply (tokens_in_range_after_calls 0 5 (1#2)); [lia | lra | reflexivity].
Defined.

(** ** allow_request *)




(** ** update_config *)

(** C4: [update_config(capacity, refill_rate)] stores both arguments, sets
    [tokens = min(tokens, capacity)] and keeps [last_checked]; tokens that
    fit the new capacity are kept as they are, so raising the capacity of a
    bucket built by the constructor and the methods tops nothing up, and
    tokens above the new capacity are cut down to it.  With tokens = 1/5,
    [update_config(10, 2)] leaves capacity 10, tokens 1/5, refill rate 2;
    with tokens = 5, [update_config(3, _)] leaves tokens = 3. *)
Theorem update_config_effect :
  (forall (capacity : Z) (refill_rate : Q) (b : TokenBucket.t),
     let b' := TokenBucket.update_config capacity refill_rate b in
     TokenBucket.capacity b' = capacity /\
     TokenBucket.refill_rate b' = refill_rate /\
     TokenBucket.last_checked b' = TokenBucket.last_checked b /\
     TokenBucket.tokens b' = Qmin (TokenBucket.tokens b) (inject_Z capacity) /\
     (TokenBucket.tokens b <= inject_Z capacity ->
      TokenBucket.tokens b' = TokenBucket.tokens b) /\
     (reachable b -> (TokenBucket.capacity b <= capacity)%Z ->
      TokenBucket.tokens b' = TokenBucket.tokens b) /\
     (inject_Z capacity < TokenBucket.tokens b ->
      TokenBucket.tokens b' = inject_Z capacity)) /\
  (forall (c : Z) (r last : Q),
     TokenBucket.update_config 10 2 (TokenBucket.mk c (1#5) r last)
     = TokenBucket.mk 10 (1#5) 2 last) /\
  (forall (c : Z) (r r' last : Q),
     TokenBucket.tokens
       (TokenBucket.update_config 3 r' (TokenBucket.mk c 5 r last)) = 3).
Proof.
  split; [| split; reflexivity].
  intros capacity refill_rate b b'. subst b'. cbn.
  assert (forall x, x <= inject_Z capacity -> py_min x (inject_Z capacity) = x)
    as Hkeep.
  { intros x Hx.
    destruct (py_min_cases x (inject_Z capacity)) as [[H E] | [H E]];
      [lra | exact E]. }
  repeat split.
  - apply py_min_Qmin.
  - apply Hkeep.
  - intros Hr Hc. apply Hkeep.
    apply reachable_upper in Hr. rewrite Zle_Qle in Hc. lra.
  - intros Hlt.
    destruct (py_min_cases (TokenBucket.tokens b) (inject_Z capacity))
      as [[H E] | [H E]]; [exact E | lra].
Qed.

Lemma update_config_effect_witness :
  reachable (snd (TokenBucket.allow_request 0 (TokenBucket.__init__ 0 5 (1#2))))
  /\
  TokenBucket.tokens
    (TokenBucket.update_config 10 2
       (snd (TokenBucket.allow_request 0 (TokenBucket.__init__ 0 5 (1#2)))))
  = TokenBucket.tokens
      (snd (TokenBucket.allow_request 0 (TokenBucket.__init__ 0 5 (1#2)))).
Proof.
  assert (reachable
            (snd (TokenBucket.allow_request 0 (TokenBucket.__init__ 0 5 (1#2)))))
    as Hr by (apply (reach_call (AllowRequest 0)), reach_init).
  split; [exact Hr |].
  apply (proj1 update_config_effect); [exact Hr | vm_compute; discriminate].
Defined.

(** C9: [update_config] validates nothing: on a bucket with tokens >= 0, a
    negative capacity argument is stored as it is, with the refill rate, and
    the token count becomes that negative capacity. *)
Theorem update_config_negative_capacity
    (c : Z) (r : Q) (b : TokenBucket.t) :
  0 <= TokenBucket.tokens b ->
  (c < 0)%Z ->
  let b' := TokenBucket.update_config c r b in
  TokenBucket.capacity b' = c /\
  TokenBucket.refill_rate b' = r /\
  TokenBucket.tokens b' = inject_Z c /\
  TokenBucket.tokens b' < 0.
Proof.
  intros Ht Hc b'. subst b'. cbn.
  assert (inject_Z c < 0) as Hc' by (rewrite Zlt_Qlt in Hc; exact Hc).
  destruct (py_min_cases (TokenBucket.tokens b) (inject_Z c))
    as [[H E] | [H E]]; [| lra].
  rewrite E. auto.
Qed.

Lemma update_config_negative_capacity_witness :
  TokenBucket.tokens
    (TokenBucket.update_config (-2) (1#2) (TokenBucket.__init__ 0 5 (1#2)))
  = inject_Z (-2).
Proof.
  apply (update_config_negative_capacity (-2) (1#2)
           (TokenBucket.__init__ 0 5 (1#2))); [vm_compute; discriminate | lia].
Defined.

(** ** The clock *)

(** C10: a clock that steps back can push the token count below zero: the
    bucket with capacity 5, tokens 1, refill rate 1 and last_checked 10 is
    within [0 <= tokens <= capacity], and [allow_request] at time 0 leaves
    it with tokens < 0. *)
Theorem backwards_clock_breaks_range :
  exists (b : TokenBucket.t) (now : Q),
    tokens_in_range b /\
    0 < TokenBucket.refill_rate b /\
    now < TokenBucket.last_checked b /\
    refilled now b ==
      TokenBucket.tokens b +
      (now - TokenBucket.last_checked b) * TokenBucket.refill_rate b /\
    (now - TokenBucket.last_checked b) * TokenBucket.refill_rate b < 0 /\
    TokenBucket.tokens (snd (TokenBucket.allow_request now b)) < 0.
Proof.
  exists (TokenBucket.mk 5 1 1 10), 0.
  unfold tokens_in_range.
  repeat split; vm_compute; solve [reflexivity | discriminate].
Qed.

(** ** Refill *)



(** ** Capacity zero *)

(** C8: a bucket constructed with capacity 0 and refill rate >= 0 denies
    every call of every sequence of calls whose clock readings never step
    back, and its token count is 0 after each of them. *)
Theorem capacity_zero_never_admits
    (now0 : Q) (refill_rate : Q) (times : list Q) :
  0 <= refill_rate ->
  non_decreasing now0 times = true ->
  let b := TokenBucket.__init__ now0 0 refill_rate in
  fst (allow_requests times b) = repeat false (List.length times) /\
  Forall (fun b' => TokenBucket.tokens b' == 0)
         (states_after (map AllowRequest times) b).
Proof.
  intros Hr Hnd b. apply capacity_zero_denies; cbn; auto. reflexivity.
Qed.

Lemma capacity_zero_never_admits_witness :
  non_decreasing 0 [0; 1; 1; 60] = true /\
  fst (allow_requests [0; 1; 1; 60] (TokenBucket.__init__ 0 0 3)) =
    [false; false; false; false].
Proof.
  split; [reflexivity |].
  apply (capacity_zero_never_admits 0 3 [0; 1; 1; 60]); [lra | reflexivity].
Defined.

(** ** The rate-limiting wrapper *)

(** C7, as the specification states it, fails in its last part:
    [allow_request] on a bucket just constructed with capacity 10^400 ends
    in [OverflowError], since the refill converts that int to float. *)
Lemma allow_request_overflow_error :
  fst (Checked.allow_request 1 (Checked.__init__ 0 (10 ^ 400) (1#2)))
  = Checked.OverflowError.
Proof. vm_compute. reflexivity. Qed.

Lemma value_min_capacity (capacity : Z) (x : Q) :
  Checked.value (Checked.min_capacity capacity x)
  = py_min (inject_Z capacity) x.
Proof.
  unfold Checked.min_capacity, py_min.
  destruct (Qlt_bool x (inject_Z capacity)); reflexivity.
Qed.

Lemma value_decrement (n : Checked.number) :
  Checked.value (Checked.decrement n) == Checked.value n - 1.
Proof.
  destruct n as [z | q]; cbn [Checked.decrement Checked.value];
    [| reflexivity].
  unfold Z.sub. rewrite inject_Z_plus, inject_Z_opp. reflexivity.
Qed.

Lemma checked_allow_request_agrees (now : Q) (self : Checked.t) :
  Checked.fits_float (Checked.tokens self) = true ->
  fst (Checked.allow_request now self)
  = Checked.Returned
      (fst (TokenBucket.allow_request now (Checked.erase self))) /\
  bucket_equiv (Checked.erase (snd (Checked.allow_request now self)))
               (snd (TokenBucket.allow_request now (Checked.erase self))).
Proof.
  intros Hfit.
  unfold Checked.allow_request, TokenBucket.allow_request, Checked.add_float.
  cbn [Checked.set_last_checked Checked.tokens Checked.refill_rate
       Checked.last_checked Checked.capacity Checked.set_tokens
       Checked.erase TokenBucket.set_last_checked TokenBucket.set_tokens
       TokenBucket.tokens TokenBucket.capacity TokenBucket.refill_rate
       TokenBucket.last_checked].
  rewrite Hfit, value_min_capacity.
  destruct (Qle_bool 1 _); cbn [fst snd]; (split; [reflexivity |]);
    unfold bucket_equiv, Checked.erase;
    cbn [Checked.capacity Checked.tokens Checked.refill_rate
         Checked.last_checked Checked.set_tokens TokenBucket.capacity
         TokenBucket.tokens TokenBucket.refill_rate
         TokenBucket.last_checked];
    (split; [reflexivity | split; [| split; reflexivity]]).
  - now rewrite value_decrement, value_min_capacity.
  - now rewrite value_min_capacity.
Qed.

(** C7 (amended): the wrapper raises [HTTPException(429, "Rate limit
    exceeded. Try again later.")] when [allow_request] returns false and
    otherwise hands back what the wrapped handler does, unchanged; on the
    guarded route it raises that exception exactly when [allow_request]
    returns false.  [allow_request] itself ends in a fault in one case only:
    it raises [OverflowError] exactly when the token count it is to refill
    is an int of magnitude 2^1024 - 2^970 or more, and then it has already
    set [last_checked]; in every other case it returns a boolean, the one
    the bucket over the rationals returns, and leaves that bucket's state. *)
Theorem rate_limited_429 :
  (forall (Request A : Type) (func : Request -> RateLimiter.outcome A)
          (now : Q) (request : Request) (b : TokenBucket.t),
     RateLimiter.rate_limited func now request b =
       (if fst (TokenBucket.allow_request now b)
        then func request
        else RateLimiter.Raise RateLimiter.rate_limit_exceeded,
        snd (TokenBucket.allow_request now b))) /\
  (forall (Request : Type) (now : Q) (request : Request) (b : TokenBucket.t),
     fst (RateLimiter.guarded_route now request b)
       = RateLimiter.Raise RateLimiter.rate_limit_exceeded
     <-> fst (TokenBucket.allow_request now b) = false) /\
  RateLimiter.status_code RateLimiter.rate_limit_exceeded = 429%Z /\
  RateLimiter.detail RateLimiter.rate_limit_exceeded
    = "Rate limit exceeded. Try again later."%string /\
  (forall (now : Q) (self : Checked.t),
     fst (Checked.allow_request now self) = Checked.OverflowError
     <-> exists z : Z, Checked.tokens self = Checked.PyInt z /\
                       (Checked.float_limit <= Z.abs z)%Z) /\
  (forall (now : Q) (self : Checked.t),
     fst (Checked.allow_request now self) = Checked.OverflowError ->
     snd (Checked.allow_request now self)
     = Checked.set_last_checked self now) /\
  (forall (now : Q) (self : Checked.t),
     Checked.fits_float (Checked.tokens self) = true ->
     fst (Checked.allow_request now self)
     = Checked.Returned
         (fst (TokenBucket.allow_request now (Checked.erase self))) /\
     bucket_equiv (Checked.erase (snd (Checked.allow_request now self)))
                  (snd (TokenBucket.allow_request now (Checked.erase self)))).
Proof.
  assert (forall (Request A : Type) (func : Request -> RateLimiter.outcome A)
                 (now : Q) (request : Request) (b : TokenBucket.t),
            RateLimiter.rate_limited func now request b =
              (if fst (TokenBucket.allow_request now b)
               then func request
               else RateLimiter.Raise RateLimiter.rate_limit_exceeded,
               snd (TokenBucket.allow_request now b))) as Hwrap.
  { intros Request A func now request b. unfold RateLimiter.rate_limited.
    destruct (TokenBucket.allow_request now b) as [[|] b']; reflexivity. }
  assert (forall (now : Q) (self : Checked.t),
            Checked.fits_float (Checked.tokens self) = false ->
            Checked.allow_request now self
            = (Checked.OverflowError, Checked.set_last_checked self now))
    as Hover.
  { intros now self Hfit.
    unfold Checked.allow_request, Checked.add_float.
    cbn [Checked.set_last_checked Checked.tokens]. now rewrite Hfit. }
  split; [exact Hwrap |].
  split; [| split; [reflexivity | split; [reflexivity |]]].
  - intros Request now request b. unfold RateLimiter.guarded_route.
    rewrite Hwrap. cbn [fst].
    destruct (fst (TokenBucket.allow_request now b)); cbn;
      split; intros H; try reflexivity; discriminate.
  - split; [| split; [| exact checked_allow_request_agrees]].
    + intros now self.
      destruct (Checked.fits_float (Checked.tokens self)) eqn:Hfit.
      * destruct (checked_allow_request_agrees now self Hfit) as [E _].
        rewrite E. split; [discriminate |].
        intros (z & Ez & Hz). rewrite Ez in Hfit.
        cbn [Checked.fits_float] in Hfit. apply Z.ltb_lt in Hfit. lia.
      * rewrite (Hover now self Hfit). split; [intros _ | reflexivity].
        destruct (Checked.tokens self) as [z | q]; [| discriminate].
        exists z. split; [reflexivity |].
        cbn [Checked.fits_float] in Hfit. apply Z.ltb_ge in Hfit.
        exact Hfit.
    + intros now self H.
      destruct (Checked.fits_float (Checked.tokens self)) eqn:Hfit.
      * destruct (checked_allow_request_agrees now self Hfit) as [E _].
        rewrite E in H. discriminate.
      * now rewrite (Hover now self Hfit).
Qed.

Lemma rate_limited_429_witness :
  Checked.fits_float (Checked.tokens (Checked.__init__ 0 5 (1#2))) = true /\
  fst (Checked.allow_request 0 (Checked.__init__ 0 5 (1#2)))
  = Checked.Returned
      (fst (TokenBucket.allow_request 0
              (Checked.erase (Checked.__init__ 0 5 (1#2))))).
Proof.
  split; [vm_compute; reflexivity |].
  apply (proj2 (proj2 (proj2 (proj2 (proj2 (proj2 rate_limited_429)))))).
  vm_compute. reflexivity.
Defined.

(** * Further properties of the bucket *)

Lemma decision_iff (now : Q) (b : TokenBucket.t) :
  fst (TokenBucket.allow_request now b) = true <-> 1 <= refilled now b.
Proof.
  destruct (allow_request_cases now b) as [[H E] | [H E]]; rewrite E; cbn.
  - tauto.
  - split; [discriminate | intros H'; lra].
Qed.


(** ** When a call is admitted *)



(** With a refill rate that is not negative, a call that is admitted at one
    clock reading is admitted at every later one. *)
Theorem waiting_never_hurts (now now' : Q) (b : TokenBucket.t) :
  0 <= TokenBucket.refill_rate b ->
  now <= now' ->
  fst (TokenBucket.allow_request now b) = true ->
  fst (TokenBucket.allow_request now' b) = true.
Proof.
  intros Hr Hn. rewrite !decision_iff. unfold refilled. intros H.
  assert (0 <= (now' - now) * TokenBucket.refill_rate b) as Hd
    by (apply Qmult_le_0_compat; lra).
  assert ((now' - TokenBucket.last_checked b) * TokenBucket.refill_rate b ==
          (now - TokenBucket.last_checked b) * TokenBucket.refill_rate b +
          (now' - now) * TokenBucket.refill_rate b) as Hsplit by ring.
  pose proof (py_min_le_l (inject_Z (TokenBucket.capacity b))
                (TokenBucket.tokens b +
                 (now - TokenBucket.last_checked b) * TokenBucket.refill_rate b)).
  pose proof (py_min_le_r (inject_Z (TokenBucket.capacity b))
                (TokenBucket.tokens b +
                 (now - TokenBucket.last_checked b) * TokenBucket.refill_rate b)).
  apply py_min_glb; lra.
Qed.

Lemma waiting_never_hurts_witness :
  fst (TokenBucket.allow_request 30 (TokenBucket.mk 5 0 (1#2) 10)) = true.
Proof.
  apply (waiting_never_hurts 12 30 (TokenBucket.mk 5 0 (1#2) 10));
    [vm_compute; discriminate | lra | reflexivity].
Defined.



(** ** Refill rate zero *)




(** ** Reconfigurations in a row *)

Lemma update_config_eq (c : Z) (r : Q) (b : TokenBucket.t) :
  TokenBucket.update_config c r b
  = TokenBucket.mk c (py_min (TokenBucket.tokens b) (inject_Z c)) r
                   (TokenBucket.last_checked b).
Proof. reflexivity. Qed.

Lemma py_min_spec (a b : Q) :
  (b < a /\ py_min a b == b) \/ (a <= b /\ py_min a b == a).
Proof.
  destruct (py_min_cases a b) as [[H E] | [H E]]; rewrite E;
    [left | right]; split; auto; reflexivity.
Qed.

Lemma py_min_assoc_Z (x : Q) (c1 c2 : Z) :
  py_min (py_min x (inject_Z c1)) (inject_Z c2)
  == py_min x (inject_Z (Z.min c1 c2)).
Proof.
  pose proof (py_min_spec x (inject_Z c1)) as H1.
  pose proof (py_min_spec (py_min x (inject_Z c1)) (inject_Z c2)) as H2.
  pose proof (py_min_spec x (inject_Z (Z.min c1 c2))) as H3.
  pose proof (Z.min_spec c1 c2) as [[Hlt Em] | [Hle Em]]; rewrite Em in *;
    [apply Z.lt_le_incl in Hlt as Hz | pose proof Hle as Hz];
    rewrite Zle_Qle in Hz;
    destruct H1 as [[? ?] | [? ?]], H2 as [[? ?] | [? ?]],
             H3 as [[? ?] | [? ?]]; lra.
Qed.

Lemma py_min_idem_r (x y : Q) : py_min (py_min x y) y = py_min x y.
Proof.
  destruct (py_min_cases x y) as [[H E] | [H E]]; rewrite E;
    match goal with
    | |- py_min ?p ?q = _ =>
        destruct (py_min_cases p q) as [[H' E'] | [H' E']]; rewrite E'
    end; try reflexivity; lra.
Qed.

(** Two [update_config] calls in a row leave the arguments of the second
    and the least of the token count and both capacities; repeating a call
    changes nothing more. *)
Theorem update_config_twice
    (c1 c2 : Z) (r1 r2 : Q) (b : TokenBucket.t) :
  TokenBucket.capacity
    (TokenBucket.update_config c2 r2 (TokenBucket.update_config c1 r1 b)) = c2 /\
  TokenBucket.refill_rate
    (TokenBucket.update_config c2 r2 (TokenBucket.update_config c1 r1 b)) = r2 /\
  TokenBucket.last_checked
    (TokenBucket.update_config c2 r2 (TokenBucket.update_config c1 r1 b))
  = TokenBucket.last_checked b /\
  TokenBucket.tokens
    (TokenBucket.update_config c2 r2 (TokenBucket.update_config c1 r1 b))
  == Qmin (TokenBucket.tokens b) (inject_Z (Z.min c1 c2)) /\
  TokenBucket.update_config c1 r1 (TokenBucket.update_config c1 r1 b)
  = TokenBucket.update_config c1 r1 b.
Proof.
  rewrite !update_config_eq. cbn [TokenBucket.capacity TokenBucket.refill_rate
    TokenBucket.last_checked TokenBucket.tokens].
  repeat split.
  - rewrite <- py_min_Qmin. apply py_min_assoc_Z.
  - now rewrite py_min_idem_r.
Qed.

(** Tokens cut off by a reduction of the capacity are not given back when
    the capacity is raised again: after a reduction below the token count
    and any later capacity that is not smaller, the bucket holds the reduced
    capacity in tokens. *)
Theorem capacity_cut_not_restored
    (c1 c2 : Z) (r1 r2 : Q) (b : TokenBucket.t) :
  inject_Z c1 < TokenBucket.tokens b ->
  (c1 <= c2)%Z ->
  TokenBucket.tokens
    (TokenBucket.update_config c2 r2 (TokenBucket.update_config c1 r1 b))
  = inject_Z c1.
Proof.
  intros Hcut Hc. rewrite Zle_Qle in Hc. rewrite !update_config_eq.
  cbn [TokenBucket.tokens].
  destruct (py_min_cases (TokenBucket.tokens b) (inject_Z c1))
    as [[H E] | [H E]]; [| lra].
  rewrite E.
  destruct (py_min_cases (inject_Z c1) (inject_Z c2)) as [[H' E'] | [H' E']];
    [lra | exact E'].
Qed.

Lemma capacity_cut_not_restored_witness :
  TokenBucket.tokens
    (TokenBucket.update_config 5 (1#2)
       (TokenBucket.update_config 3 (1#2) (TokenBucket.__init__ 0 5 (1#2))))
  = inject_Z 3.
Proof.
  apply (capacity_cut_not_restored 3 5 (1#2) (1#2)
           (TokenBucket.__init__ 0 5 (1#2)));
    [reflexivity | lia].
Defined.

(** ** Reconfiguration and the time already elapsed *)






(** * The application *)




(** The answers of [GET /] follow the decisions of the bucket one for one:
    requests served in a row get the message where [allow_request] admits
    and the 429 where it denies, and they leave the bucket as the calls to
    [allow_request] alone do. *)
Theorem guarded_route_follows_bucket (times : list Q) (b : TokenBucket.t) :
  fst (App.serve_all (map App.GET_root times) b) =
    map (fun allowed : bool =>
           App.root_response
             (if allowed
              then RateLimiter.Return
                     [("message", "Rate Limiter Code Challenge!")]%string
              else RateLimiter.Raise RateLimiter.rate_limit_exceeded))
        (fst (allow_requests times b)) /\
  snd (App.serve_all (map App.GET_root times) b)
  = snd (allow_requests times b).
Proof.
  revert b. induction times as [| now times IH]; intros b;
    [split; reflexivity |].
  cbn [map App.serve_all App.serve allow_requests].
  unfold RateLimiter.guarded_route, RateLimiter.rate_limited.
  destruct (TokenBucket.allow_request now b) as [allowed b1].
  destruct (IH b1) as [IH1 IH2]. clear IH.
  destruct allowed; cbn [negb];
    destruct (App.serve_all (map App.GET_root times) b1) as [os b2];
    destruct (allow_requests times b1) as [rest b3];
    cbn [fst snd map] in *; subst os b3; split; reflexivity.
Qed.
